(** * cannapy: the WSLCB open-data portal wrapper

    A shallow embedding of [cannapy/us/wa/wslcb/portal.py] and the
    properties of its specification.

    The module is glue code over two collaborators that are not part of
    the repository: the [sodapy] Socrata client (every remote call) and
    [pandas] (the tabular constructor).  They are taken as parameters of
    the development; everything the module itself does (the token
    precedence, the lazy handle, the subscripts and the [int] conversion
    of the count, the paging loop, the column-table lookup) is modelled
    from the source.

    Python values are the values a decoded JSON response can hold.
    Strings are sequences of characters with code points below 256;
    JSON floating-point numbers are left out of the value universe. *)

From Stdlib Require Import ZArith Lia Ascii.
From stdpp Require Import base option list strings gmap sorting.

Local Open Scope string_scope.
Local Open Scope list_scope.
Local Open Scope Z_scope.

(** ** Python values and exceptions *)

Module Py.

#[warnings="-register-all"]
Inductive PyVal : Type :=
| PyNone
| PyBool (b : bool)
| PyInt (n : Z)
| PyStr (s : string)
| PyList (l : list PyVal)
| PyDict (d : list (string * PyVal)).

(** The exception classes the module can raise by itself, and [Raised]
    for whatever class a collaborator raises. *)
Inductive Exn : Type :=
| IndexError
| KeyError (key : PyVal)
| ValueError
| TypeError
| Raised (cls : string).

Definition Res (A : Type) : Type := (Exn + A)%type.

(** *** [int(x)] *)

(** [int] on a string follows CPython 3.6 and later, in base 10; the cap
    on the number of digits of recent versions is left out.

    Whitespace for [int(str)]: the ASCII blanks 9..13 and 32, and the two
    Unicode blanks below 256 (NEL and NBSP), which CPython turns into a
    space before parsing. *)
Definition is_space (c : ascii) : bool :=
  let n := Z.of_nat (nat_of_ascii c) in
  ((9 <=? n) && (n <=? 13)) || (n =? 32) || (n =? 133) || (n =? 160).

Definition digit_of (c : ascii) : option Z :=
  let n := Z.of_nat (nat_of_ascii c) in
  if (48 <=? n) && (n <=? 57) then Some (n - 48) else None.

Definition is_underscore (c : ascii) : bool := Ascii.eqb c "_"%char.

Fixpoint lstrip (s : string) : string :=
  match s with
  | String c s' => if is_space c then lstrip s' else s
  | EmptyString => s
  end.

(** The digit scan of [PyLong_FromString] in base 10: digits, with single
    underscores allowed between them.  [prev_us] tells that the previous
    character was an underscore.  The scan stops at the first character
    that is neither, and fails on a doubled or a trailing underscore. *)
Fixpoint scan_digits (acc : Z) (prev_us : bool) (s : string)
  : option (Z * string) :=
  match s with
  | String c s' =>
      match digit_of c with
      | Some d => scan_digits (10 * acc + d) false s'
      | None =>
          if is_underscore c
          then (if prev_us then None else scan_digits acc true s')
          else (if prev_us then None else Some (acc, s))
      end
  | EmptyString => if prev_us then None else Some (acc, s)
  end.

(** [int(s)] for a string: blanks, an optional sign, at least one digit
    (no leading underscore), blanks. *)
Definition parse_int (s : string) : option Z :=
  let s1 := lstrip s in
  let '(neg, s2) :=
    match s1 with
    | String c r =>
        if Ascii.eqb c "+"%char then (false, r)
        else if Ascii.eqb c "-"%char then (true, r)
        else (false, s1)
    | EmptyString => (false, s1)
    end in
  match s2 with
  | String c _ =>
      match digit_of c with
      | None => None
      | Some _ =>
          match scan_digits 0 false s2 with
          | Some (n, rest) =>
              match lstrip rest with
              | EmptyString => Some (if neg then - n else n)
              | String _ _ => None
              end
          | None => None
          end
      end
  | EmptyString => None
  end.

Definition py_int (v : PyVal) : Res Z :=
  match v with
  | PyInt n => inr n
  | PyBool b => inr (if b then 1 else 0)
  | PyStr s =>
      match parse_int s with
      | Some n => inr n
      | None => inl ValueError
      end
  | PyNone | PyList _ | PyDict _ => inl TypeError
  end.

(** *** Subscripts *)

(** [l[i]] on a Python sequence: a negative index counts from the end. *)
Definition seq_index {A : Type} (l : list A) (i : Z) : option A :=
  let n := Z.of_nat (length l) in
  let j := if i <? 0 then i + n else i in
  if (0 <=? j) && (j <? n) then l !! Z.to_nat j else None.

Definition assoc_lookup {A : Type} (key : string) (d : list (string * A))
  : option A :=
  snd <$> List.find (fun kv => String.eqb (fst kv) key) d.

(** [v[i]] for an integer [i]. *)
Definition py_index (v : PyVal) (i : Z) : Res PyVal :=
  match v with
  | PyList l =>
      match seq_index l i with
      | Some x => inr x
      | None => inl IndexError
      end
  | PyStr s =>
      match seq_index (String.list_ascii_of_string s) i with
      | Some c => inr (PyStr (String c EmptyString))
      | None => inl IndexError
      end
  | PyDict _ => inl (KeyError (PyInt i))
  | PyNone | PyBool _ | PyInt _ => inl TypeError
  end.

(** [v[key]] for a string [key]. *)
Definition py_key (v : PyVal) (key : string) : Res PyVal :=
  match v with
  | PyDict d =>
      match assoc_lookup key d with
      | Some x => inr x
      | None => inl (KeyError (PyStr key))
      end
  | PyNone | PyBool _ | PyInt _ | PyStr _ | PyList _ => inl TypeError
  end.

(** *** Iteration, as [list.extend] consumes its argument *)

Definition py_iter (v : PyVal) : Res (list PyVal) :=
  match v with
  | PyList l => inr l
  | PyStr s =>
      inr ((fun c => PyStr (String c EmptyString)) <$> String.list_ascii_of_string s)
  | PyDict d => inr ((fun kv => PyStr (fst kv)) <$> d)
  | PyNone | PyBool _ | PyInt _ => inl TypeError
  end.

(** *** [range(start, stop, step)] for a positive step *)

Definition range_len (start stop step : Z) : nat :=
  if (0 <? step) && (start <? stop)
  then Z.to_nat (1 + (stop - 1 - start) / step)
  else 0%nat.

Definition py_range (start stop step : Z) : list Z :=
  (fun i : nat => start + Z.of_nat i * step) <$> seq 0 (range_len start stop step).

End Py.
Export Py.

(** ** Module constants *)

Definition WSLCB_PORTAL_URL : string := "data.lcb.wa.gov".

Definition WSLCB_PORTAL_DATASET_COLUMNS : gmap string (list string) :=
  list_to_map
    [ ("3qmf-vgdg", ["date"; "license_number"; "county_name"; "city_name";
                     "action"]);
      ("8rrd-wvpk", ["sales_date"; "sales_year_month"; "pounds_harvested";
                     "grams_harvested"]);
      ("bhbp-x4eb", ["license"; "type"; "createdate"; "active"; "organization";
                     "address"; "address_line_2"; "city"; "state"; "zip";
                     "county"; "dayphone"; "ubi"]);
      ("dgm4-3cm6", ["visit_date"; "license_number"; "county_name"; "city_name";
                     "case"; "violation_code"; "wac_code"; "penalty_type"]);
      ("kdyh-jjfc", ["sales_date"; "sales_year_month"; "type";
                     "child_usableweight_grams"; "child_usableweight_pounds"]);
      ("msk5-ts9q", ["sessiontimedate"; "orgname"; "inventory_type";
                     "usableweight_grams"; "usableweight_pounds"; "price"]);
      ("w7wg-8m52", ["date"; "license_number"; "city_name"; "county_name";
                     "activity"]);
      ("vbqh-2tf4", ["sales_date"; "sales_year_month"; "organization"; "type";
                     "childweight_pounds"; "childweight_grams"]) ].

(** ** The remote collaborator's interface *)

(** A [Socrata(domain, app_token)] object.  [handle_id] is the object's
    identity: the number of handles built before it. *)
Record Handle : Type := mkHandle {
  handle_id : nat;
  domain : string;
  token : string
}.

(** The keyword arguments of [Socrata.get] the module uses. *)
Record Params : Type := mkParams {
  select : option string;
  order : option string;
  offset : option Z;
  limit : option Z
}.

Inductive Request : Type :=
| GetMetadata (dataset_id : string)
| Get (dataset_id : string) (kw : Params).

(** One remote call as it happened: the handle it went through, the
    request, and what came back (a value, or the exception raised). *)
Record Call : Type := mkCall {
  via : Handle;
  req : Request;
  resp : Res PyVal
}.

(** What the loop of [get_entire_dataset] gets out of a call: the rows the
    answer iterates to, or the exception raised by the call or by the
    iteration. *)
Definition returned_rows (c : Call) : Res (list PyVal) :=
  match resp c with
  | inr page => py_iter page
  | inl e => inl e
  end.

(** The number of rows of an outcome that is a sequence of rows. *)
Definition row_count (r : Res (list PyVal)) : option Z :=
  match r with
  | inr rows => Some (Z.of_nat (length rows))
  | inl _ => None
  end.

Definition request_offset (r : Request) : option Z :=
  match r with
  | Get _ kw => offset kw
  | GetMetadata _ => None
  end.

(** ** The object *)

Record Self : Type := mkSelf {
  _app_token : string;
  _client : option Handle
}.

Definition os_getenv (environ : gmap string string) (key default : string)
  : string :=
  match environ !! key with
  | Some v => v
  | None => default
  end.

(** [WSLCBPortal.__init__] *)
Definition init (environ : gmap string string) (app_token : string) : Self :=
  let app_token :=
    if decide (app_token = "")
    then os_getenv environ "WSLCB_APP_TOKEN" ""
    else app_token in
  {| _app_token := app_token; _client := None |}.

Section Portal.

(** The remote service: a transition of its own state for every call
    sent through a handle. *)
Context {World : Type}.
Variable remote : Handle -> Request -> World -> World * Res PyVal.

(** [pandas.DataFrame.from_records] and [time.localtime]. *)
Context {DataFrame StructTime : Type}.
Variable from_records : PyVal -> list string -> Res DataFrame.
Variable localtime : PyVal -> Res StructTime.

(** What a run can observe: the object's fields, the remote state, the
    remote calls issued and the handles built (both oldest first), and
    the arguments of every [from_records] call. *)
Record State : Type := mkState {
  self : Self;
  world : World;
  calls : list Call;
  built : list Handle;
  framed : list (PyVal * list string)
}.

Definition set_self (f : Self -> Self) (st : State) : State :=
  {| self := f (self st); world := world st; calls := calls st;
     built := built st; framed := framed st |}.

(** A computation either returns or raises, and leaves a state behind
    in both cases. *)
Definition M (A : Type) : Type := State -> State * Res A.

Definition ret {A} (a : A) : M A := fun st => (st, inr a).
Definition bind {A B} (m : M A) (k : A -> M B) : M B :=
  fun st =>
    match m st with
    | (st', inr a) => k a st'
    | (st', inl e) => (st', inl e)
    end.
Definition lift {A} (r : Res A) : M A := fun st => (st, r).

Notation "'let*' x := m 'in' k" := (bind m (fun x => k))
  (at level 10, x name, m at level 100, k at level 200, only parsing).

(** The [app_token] property and its setter. *)
Definition app_token : M string := fun st => (st, inr (_app_token (self st))).

Definition set_app_token (value : string) : M unit := fun st =>
  (set_self (fun s => {| _app_token := value; _client := _client s |}) st,
   inr tt).

Definition Socrata (url tok : string) : M Handle := fun st =>
  let h := {| handle_id := length (built st); domain := url; token := tok |} in
  ({| self := self st; world := world st; calls := calls st;
      built := built st ++ [h]; framed := framed st |}, inr h).

(** The [client] property. *)
Definition client : M Handle := fun st =>
  match _client (self st) with
  | None =>
      (let* tok := app_token in
       let* h := Socrata WSLCB_PORTAL_URL tok in
       fun st' =>
         (set_self (fun s => {| _app_token := _app_token s;
                                _client := Some h |}) st', inr h)) st
  | Some h => (st, inr h)
  end.

(** [h.get(...)] and [h.get_metadata(...)]: one remote call. *)
Definition send (h : Handle) (r : Request) : M PyVal := fun st =>
  let '(w, res) := remote h r (world st) in
  ({| self := self st; world := w;
      calls := calls st ++ [mkCall h r res];
      built := built st; framed := framed st |}, res).

Definition get_dataset_metadata (dataset_id : string) : M PyVal :=
  let* h := client in
  send h (GetMetadata dataset_id).

Definition count_request (dataset_id : string) : Request :=
  Get dataset_id {| select := Some "count(*)"; order := None;
                    offset := None; limit := None |}.

Definition get_dataset_count (dataset_id : string) : M Z :=
  let* h := client in
  let* metadata := send h (count_request dataset_id) in
  let* row := lift (py_index metadata 0) in
  let* field := lift (py_key row "count") in
  lift (py_int field).

Definition dataset_request (dataset_id : string) : Request :=
  Get dataset_id {| select := None; order := None;
                    offset := None; limit := Some 100000 |}.

Definition get_dataset (dataset_id : string) : M PyVal :=
  let* h := client in
  send h (dataset_request dataset_id).

Definition page_request (dataset_id order_by : string) (offset limit : Z)
  : Request :=
  Get dataset_id {| select := None; order := Some order_by;
                    offset := Some offset; limit := Some limit |}.

(** The body of the [for] loop of [get_entire_dataset], over the
    offsets still to visit. *)
Fixpoint fetch_pages (dataset_id order_by : string) (limit : Z)
    (offsets : list Z) (dataset : list PyVal) : M (list PyVal) :=
  match offsets with
  | [] => ret dataset
  | offset :: rest =>
      let* h := client in
      let* page := send h (page_request dataset_id order_by offset limit) in
      let* rows := lift (py_iter page) in
      fetch_pages dataset_id order_by limit rest (dataset ++ rows)
  end.

Definition get_entire_dataset (dataset_id order_by : string)
  : M (list PyVal) :=
  let* count := get_dataset_count dataset_id in
  let limit := 100000 in
  let dataset := [] in
  fetch_pages dataset_id order_by limit (py_range 0 count limit) dataset.

Definition columns_of (dataset_id : string) : Res (list string) :=
  match WSLCB_PORTAL_DATASET_COLUMNS !! dataset_id with
  | Some columns => inr columns
  | None => inl (KeyError (PyStr dataset_id))
  end.

Definition DataFrame_from_records (dataset : PyVal) (columns : list string)
  : M DataFrame := fun st =>
  ({| self := self st; world := world st; calls := calls st;
      built := built st; framed := framed st ++ [(dataset, columns)] |},
   from_records dataset columns).

Definition get_dataframe (dataset_id : string) : M DataFrame :=
  let* dataset := get_dataset dataset_id in
  let* columns := lift (columns_of dataset_id) in
  let* dataframe := DataFrame_from_records dataset columns in
  ret dataframe.

Definition dataset_last_updated (dataset_id : string) : M StructTime :=
  let* metadata := get_dataset_metadata dataset_id in
  let* last_updated := lift (py_key metadata "rowsUpdatedAt") in
  let* last_updated := lift (localtime last_updated) in
  ret last_updated.

(** *** Vocabulary for the properties *)

(** The handle the [client] property builds in state [st]. *)
Definition next_handle (st : State) : Handle :=
  {| handle_id := length (built st); domain := WSLCB_PORTAL_URL;
     token := _app_token (self st) |}.

(** Every run of [m] relates the state it starts from to the state it
    leaves. *)
Definition respects {A} (R : State -> State -> Prop) (m : M A) : Prop :=
  forall st, R st (fst (m st)).

(** [frame st st']: the token is the same, and the cached handle is the
    same too, unless it was unset in [st] and [st'] holds the handle built
    from [st]. *)
Definition frame (st st' : State) : Prop :=
  _app_token (self st') = _app_token (self st) /\
  match _client (self st) with
  | Some h => _client (self st') = Some h /\ built st' = built st
  | None =>
      (_client (self st') = None /\ built st' = built st) \/
      (_client (self st') = Some (next_handle st) /\
       built st' = built st ++ [next_handle st])
  end.

(** Sequences of operations on one instance. *)

Inductive Op : Type :=
| OpMetadata (dataset_id : string)
| OpCount (dataset_id : string)
| OpPage (dataset_id : string)
| OpAll (dataset_id order_by : string)
| OpDataframe (dataset_id : string)
| OpLastUpdated (dataset_id : string)
| OpToken
| OpSetToken (value : string)
| OpClient.

(** The state an operation leaves, whether it returned or raised. *)
Definition exec (o : Op) (st : State) : State :=
  match o with
  | OpMetadata id => fst (get_dataset_metadata id st)
  | OpCount id => fst (get_dataset_count id st)
  | OpPage id => fst (get_dataset id st)
  | OpAll id ord => fst (get_entire_dataset id ord st)
  | OpDataframe id => fst (get_dataframe id st)
  | OpLastUpdated id => fst (dataset_last_updated id st)
  | OpToken => fst (app_token st)
  | OpSetToken value => fst (set_app_token value st)
  | OpClient => fst (client st)
  end.

Definition exec_all (ops : list Op) (st : State) : State :=
  fold_left (fun s o => exec o s) ops st.

Definition is_setter (o : Op) : bool :=
  match o with OpSetToken _ => true | _ => false end.

(** The operations that read the [client] property. *)
Definition uses_client (o : Op) : bool :=
  match o with OpToken | OpSetToken _ => false | _ => true end.

(** The handle a read of the [client] property yields in state [st]. *)
Definition current_handle (st : State) : Handle :=
  match _client (self st) with
  | Some h => h
  | None => next_handle st
  end.

(** [through h st st']: the log of [st'] is the log of [st] followed by
    calls that all went through the handle [h]. *)
Definition through (h : Handle) (st st' : State) : Prop :=
  exists news : list Call,
    calls st' = calls st ++ news /\ Forall (fun c => via c = h) news.

(** [served st st']: from [st] to [st'] the handle in use stayed the same,
    a cached handle stayed cached, and every call went through it. *)
Definition served (st st' : State) : Prop :=
  current_handle st' = current_handle st /\
  (is_Some (_client (self st)) -> is_Some (_client (self st'))) /\
  through (current_handle st) st st'.

End Portal.

Arguments State : clear implicits.
Arguments M : clear implicits.

(** ** A concrete remote service, for examples

    The world is the number of rows the dataset holds.  A count query
    answers with a count as a string, as Socrata does; any other query
    answers with the rows of its window, the offset defaulting to 0. *)
Module Demo.

Definition row (i : Z) : PyVal := PyDict [("n", PyInt i)].

Fixpoint rows_from (start : Z) (n : nat) : list PyVal :=
  match n with
  | O => []
  | S n' => row start :: rows_from (start + 1) n'
  end.

Definition window (total offset limit : Z) : list PyVal :=
  rows_from offset (Z.to_nat (Z.min limit (total - offset))).

(** The dataset holds [total] rows; the service reports [total_str] as
    the count and serves at most [cap] rows per query. *)
Definition remote (total_str : string) (cap : Z) (h : Handle) (r : Request)
    (total : Z) : Z * Res PyVal :=
  match r with
  | GetMetadata _ => (total, inr (PyDict [("rowsUpdatedAt", PyInt 1500000000)]))
  | Get _ kw =>
      match select kw with
      | Some _ => (total, inr (PyList [PyDict [("count", PyStr total_str)]]))
      | None =>
          (total, inr (PyList (window total (default 0 (offset kw))
                                 (Z.min (default cap (limit kw)) cap))))
      end
  end.

(** A service that reports 250000 rows, serves the first page and fails
    on every later one. *)
Definition flaky (h : Handle) (r : Request) (w : unit) : unit * Res PyVal :=
  match r with
  | GetMetadata _ => (w, inl (Raised "HTTPError"))
  | Get _ kw =>
      match select kw, offset kw with
      | Some _, _ => (w, inr (PyList [PyDict [("count", PyStr "250000")]]))
      | None, Some 0 => (w, inr (PyList [row 0; row 1]))
      | None, _ => (w, inl (Raised "HTTPError"))
      end
  end.

(** A service that reports 150000 rows, serves the first page and answers
    every later page query with null. *)
Definition broken (h : Handle) (r : Request) (w : unit) : unit * Res PyVal :=
  match r with
  | GetMetadata _ => (w, inr (PyDict []))
  | Get _ kw =>
      match select kw, offset kw with
      | Some _, _ => (w, inr (PyList [PyDict [("count", PyStr "150000")]]))
      | None, Some 0 => (w, inr (PyList [row 0; row 1]))
      | None, _ => (w, inr PyNone)
      end
  end.


(** A service that answers every query with the same value. *)
Definition fixed (v : PyVal) (h : Handle) (r : Request) (w : unit)
  : unit * Res PyVal := (w, inr v).

Definition from_records (dataset : PyVal) (columns : list string)
  : Res (list string) := inr columns.

Definition localtime (t : PyVal) : Res Z := py_int t.

Definition fresh {W} (w : W) (tok : string) : State W :=
  {| self := init ∅ tok; world := w; calls := []; built := [];
     framed := [] |}.

(** An instance built with the token "first", after a first read of its
    [client] property, and after a session that resets the token. *)
Definition first_handle : Handle :=
  {| handle_id := 0; domain := "data.lcb.wa.gov"; token := "first" |}.

Definition opened : State Z := fst (client (fresh 3 "first")).

Definition session : list Op :=
  [OpSetToken "second"; OpAll "bhbp-x4eb" "ubi"; OpClient].

Definition after_session : State Z :=
  exec_all (remote "3" 100000) from_records localtime session opened.

(** An instance built with no token, in an environment that sets one. *)
Definition from_environment : State Z :=
  {| self := init {["WSLCB_APP_TOKEN" := "from-env"]} ""; world := 3;
     calls := []; built := []; framed := [] |}.

End Demo.

(** ** Vocabulary of the properties *)







(** ⌈a / b⌉ for a positive [b]. *)
Definition ceil_div (a b : Z) : Z := - ((- a) / b).

(** ** Properties *)

(** *** The built-ins *)

Example int_ok : py_int (PyStr " -1_000 ") = inr (-1000).
Proof. reflexivity. Qed.
Example int_bad : py_int (PyStr "12a") = inl ValueError.
Proof. reflexivity. Qed.
Example int_bad_us : py_int (PyStr "1__0") = inl ValueError.
Proof. reflexivity. Qed.
Example range_250k : py_range 0 250000 100000 = [0; 100000; 200000].
Proof. reflexivity. Qed.
Example range_0 : py_range 0 0 100000 = [].
Proof. reflexivity. Qed.
Example range_exact : py_range 0 200000 100000 = [0; 100000].
Proof. reflexivity. Qed.








(** *** Ceiling division and [range] *)

Lemma ceil_div_spec (a b q : Z) :
  0 < b -> (ceil_div a b = q <-> (q - 1) * b < a <= q * b).
Proof.
  intros Hb. unfold ceil_div. split.
  - intros <-.
    pose proof (Z.mul_div_le (- a) b Hb).
    pose proof (Z.mul_succ_div_gt (- a) b Hb). nia.
  - intros [H1 H2].
    assert (- a / b = - q); [|lia].
    symmetry. apply Z.div_unique with (r := q * b - a); [lia | ring].
Qed.

Lemma range_len_ceil (stop step : Z) :
  0 < step -> range_len 0 stop step = Z.to_nat (ceil_div stop step).
Proof.
  intros Hs. unfold range_len.
  destruct (Z.ltb_spec 0 step) as [_|?]; [|lia].
  destruct (Z.ltb_spec 0 stop) as [Hp|Hn]; simpl.
  - f_equal. symmetry. apply ceil_div_spec; [done|].
    replace (stop - 1 - 0) with (stop - 1) by lia.
    pose proof (Z.mul_div_le (stop - 1) step Hs).
    pose proof (Z.mul_succ_div_gt (stop - 1) step Hs). nia.
  - assert (ceil_div stop step <= 0); [|lia].
    unfold ceil_div.
    assert (0 <= - stop / step) by (apply Z.div_pos; lia). lia.
Qed.

Lemma py_range_length (stop step : Z) :
  0 < step -> length (py_range 0 stop step) = Z.to_nat (ceil_div stop step).
Proof.
  intros Hs. unfold py_range.
  rewrite length_fmap, length_seq. by apply range_len_ceil.
Qed.

Lemma py_range_lookup (stop step : Z) (i : nat) :
  (i < length (py_range 0 stop step))%nat ->
  py_range 0 stop step !! i = Some (Z.of_nat i * step).
Proof.
  unfold py_range. rewrite length_fmap, length_seq. intros Hi.
  rewrite list_lookup_fmap, lookup_seq_lt by done. reflexivity.
Qed.


Lemma py_range_ascending (stop step : Z) :
  0 < step -> StronglySorted Z.lt (py_range 0 stop step).
Proof.
  intros Hs. unfold py_range.
  generalize (range_len 0 stop step) as n. generalize 0%nat as s.
  intros s n. revert s. induction n as [|n IH]; intros s; simpl.
  - constructor.
  - constructor; [apply IH|].
    apply Forall_forall. intros k Hk.
    apply list_elem_of_fmap in Hk as [j [-> Hj]].
    apply elem_of_seq in Hj. nia.
Qed.

(** *** Construction *)

(** C5. Token precedence at construction: a non-empty token passed to the
    constructor is stored and the environment plays no part in the
    result; an empty one is replaced by the value of the environment
    variable, and by the empty string when the variable is unset. *)
Theorem init_token_precedence (environ : gmap string string) (tok : string) :
  (tok <> "" ->
     _app_token (init environ tok) = tok /\
     forall environ', init environ' tok = init environ tok) /\
  (tok = "" ->
     forall v, environ !! "WSLCB_APP_TOKEN" = Some v ->
     _app_token (init environ tok) = v) /\
  (tok = "" -> environ !! "WSLCB_APP_TOKEN" = None ->
     _app_token (init environ tok) = "").
Proof.
  unfold init, os_getenv. split; [|split].
  - intros Hne. destruct (decide (tok = "")); [done|]. by split.
  - intros -> v Hv. simpl. by rewrite Hv.
  - intros -> Hv. simpl. by rewrite Hv.
Qed.

Lemma init_token_precedence_witness :
  (_app_token (init {["WSLCB_APP_TOKEN" := "from-env"]} "explicit") = "explicit" /\
   forall environ', init environ' "explicit"
                    = init {["WSLCB_APP_TOKEN" := "from-env"]} "explicit") /\
  _app_token (init {["WSLCB_APP_TOKEN" := "from-env"]} "") = "from-env" /\
  _app_token (init ∅ "") = "".
Proof.
  split; [|split].
  - apply (proj1 (init_token_precedence {["WSLCB_APP_TOKEN" := "from-env"]}
                    "explicit")). discriminate.
  - apply (proj1 (proj2 (init_token_precedence
                           {["WSLCB_APP_TOKEN" := "from-env"]} ""))
             eq_refl "from-env"). reflexivity.
  - apply (proj2 (proj2 (init_token_precedence ∅ "")) eq_refl). reflexivity.
Defined.

Lemma init_client_unset (environ : gmap string string) (tok : string) :
  _client (init environ tok) = None.
Proof. reflexivity. Qed.

(** *** The monad and the lazy handle *)

Section Facts.

Context {World : Type}.
Variable remote : Handle -> Request -> World -> World * Res PyVal.
Context {DataFrame StructTime : Type}.
Variable from_records : PyVal -> list string -> Res DataFrame.
Variable localtime : PyVal -> Res StructTime.

Local Abbreviation State := (State World).
Local Abbreviation M := (M World).
Local Abbreviation client := (@client World).
Local Abbreviation app_token := (@app_token World).
Local Abbreviation frame := (@frame World).
Local Abbreviation exec := (exec remote from_records localtime).
Local Abbreviation exec_all := (exec_all remote from_records localtime).

Lemma client_cached (st : State) (h : Handle) :
  _client (self st) = Some h -> client st = (st, inr h).
Proof. intros H. unfold client. by rewrite H. Qed.

Lemma client_first (st : State) :
  _client (self st) = None ->
  client st =
    ({| self := {| _app_token := _app_token (self st);
                   _client := Some (next_handle st) |};
        world := world st; calls := calls st;
        built := built st ++ [next_handle st]; framed := framed st |},
     inr (next_handle st)).
Proof. intros H. unfold client. by rewrite H. Qed.

Lemma send_run (h : Handle) (r : Request) (st : State) :
  send remote h r st =
    ({| self := self st; world := fst (remote h r (world st));
        calls := calls st ++ [mkCall h r (snd (remote h r (world st)))];
        built := built st; framed := framed st |},
     snd (remote h r (world st))).
Proof. unfold send. by destruct (remote h r (world st)). Qed.

(** A reflexive and transitive relation kept by the property read, by a
    remote call and by the tabular constructor is kept by every
    operation. *)
Section Respects.

Variable R : State -> State -> Prop.
Hypothesis R_refl : forall st, R st st.
Hypothesis R_trans : forall a b c, R a b -> R b c -> R a c.

Lemma respects_ret {A} (a : A) : respects R (ret a).
Proof. intros st. apply R_refl. Qed.

Lemma respects_lift {A} (r : Res A) : respects R (lift r).
Proof. intros st. apply R_refl. Qed.

Lemma respects_bind {A B} (m : M A) (k : A -> M B) :
  respects R m -> (forall a, respects R (k a)) -> respects R (bind m k).
Proof.
  intros Hm Hk st. unfold bind. specialize (Hm st).
  destruct (m st) as [st' [e|a]]; simpl in *; [done|].
  eapply R_trans; [exact Hm | apply Hk].
Qed.

Hypothesis R_client : respects R client.
Hypothesis R_send : forall h r, respects R (send remote h r).
Hypothesis R_frame :
  forall d c, respects R (DataFrame_from_records from_records d c).

Lemma respects_get_dataset_metadata id :
  respects R (get_dataset_metadata remote id).
Proof. apply respects_bind; [done|]. intros h. apply R_send. Qed.

Lemma respects_get_dataset_count id :
  respects R (get_dataset_count remote id).
Proof.
  unfold get_dataset_count.
  repeat (apply respects_bind; [done || apply respects_lift|]; intros ?).
  apply respects_lift.
Qed.

Lemma respects_get_dataset id : respects R (get_dataset remote id).
Proof. apply respects_bind; [done|]. intros h. apply R_send. Qed.

Lemma respects_fetch_pages id ord lim offs acc :
  respects R (fetch_pages remote id ord lim offs acc).
Proof.
  revert acc. induction offs as [|o offs IH]; intros acc; simpl.
  - apply respects_ret.
  - apply respects_bind; [done|]. intros h.
    apply respects_bind; [apply R_send|]. intros page.
    apply respects_bind; [apply respects_lift|]. intros rows. apply IH.
Qed.

Lemma respects_get_entire_dataset id ord :
  respects R (get_entire_dataset remote id ord).
Proof.
  apply respects_bind; [apply respects_get_dataset_count|].
  intros n. apply respects_fetch_pages.
Qed.

Lemma respects_get_dataframe id :
  respects R (get_dataframe remote from_records id).
Proof.
  apply respects_bind; [apply respects_get_dataset|]. intros d.
  apply respects_bind; [apply respects_lift|]. intros c.
  apply respects_bind; [apply R_frame|]. intros f. apply respects_ret.
Qed.

Lemma respects_dataset_last_updated id :
  respects R (dataset_last_updated remote localtime id).
Proof.
  apply respects_bind; [apply respects_get_dataset_metadata|]. intros d.
  apply respects_bind; [apply respects_lift|]. intros c.
  apply respects_bind; [apply respects_lift|]. intros f. apply respects_ret.
Qed.

End Respects.

(** *** What the operations leave alone *)

Lemma frame_same (st st' : State) :
  self st' = self st -> built st' = built st -> frame st st'.
Proof.
  intros Hs Hb. unfold frame. rewrite Hs. split; [done|].
  destruct (_client (self st)); [done|]. by left.
Qed.

Lemma frame_refl (st : State) : frame st st.
Proof. by apply frame_same. Qed.

Lemma frame_trans (a b c : State) : frame a b -> frame b c -> frame a c.
Proof.
  unfold frame. intros [Ht1 H1] [Ht2 H2]. split; [congruence|].
  destruct (_client (self a)) as [h|].
  - destruct H1 as [Hc Hb]. rewrite Hc in H2. destruct H2. split; congruence.
  - destruct H1 as [[Hc Hb]|[Hc Hb]]; rewrite Hc in H2.
    + assert (next_handle b = next_handle a) as Hn
        by (unfold next_handle; congruence).
      rewrite Hn in H2. destruct H2 as [[? ?]|[? ?]]; [left|right];
        split; congruence.
    + right. destruct H2. split; congruence.
Qed.

Lemma frame_client : respects frame client.
Proof.
  intros st. unfold frame.
  destruct (_client (self st)) as [h|] eqn:Hc.
  - rewrite (client_cached _ _ Hc). by simpl.
  - rewrite (client_first _ Hc). simpl. split; [done|]. by right.
Qed.

Lemma frame_send h r : respects frame (send remote h r).
Proof. intros st. rewrite send_run. by apply frame_same. Qed.

Lemma frame_from_records d c :
  respects frame (DataFrame_from_records from_records d c).
Proof. intros st. by apply frame_same. Qed.

Lemma frame_app_token : respects frame app_token.
Proof. intros st. apply frame_refl. Qed.

(** The setter replaces the token and nothing else. *)
Lemma set_app_token_run (value : string) (st : State) :
  set_app_token value st =
    ({| self := {| _app_token := value; _client := _client (self st) |};
        world := world st; calls := calls st; built := built st;
        framed := framed st |}, inr tt).
Proof. reflexivity. Qed.

Lemma exec_frame (o : Op) (st : State) :
  is_setter o = false -> frame st (exec o st).
Proof.
  pose proof frame_refl as Hr. pose proof frame_trans as Ht.
  pose proof frame_client as Hc. pose proof frame_send as Hs.
  pose proof frame_from_records as Hf.
  destruct o; simpl; intros Hset; try discriminate.
  - by apply respects_get_dataset_metadata.
  - by apply respects_get_dataset_count.
  - by apply respects_get_dataset.
  - by apply respects_get_entire_dataset.
  - by apply respects_get_dataframe.
  - by apply respects_dataset_last_updated.
  - apply frame_app_token.
  - apply frame_client.
Qed.

(** The cached handle, once set, survives every operation, the setter
    included, and no further handle is built. *)
Lemma exec_cached (o : Op) (st : State) (h : Handle) :
  _client (self st) = Some h ->
  _client (self (exec o st)) = Some h /\ built (exec o st) = built st.
Proof.
  intros Hc. destruct (is_setter o) eqn:Hs.
  - destruct o; try discriminate. by simpl.
  - destruct (exec_frame o st Hs) as [_ H]. by rewrite Hc in H.
Qed.

Lemma exec_all_cached (ops : list Op) (st : State) (h : Handle) :
  _client (self st) = Some h ->
  _client (self (exec_all ops st)) = Some h /\
  built (exec_all ops st) = built st.
Proof.
  revert st. induction ops as [|o ops IH]; intros st Hc; [done|].
  simpl. destruct (exec_cached o st h Hc) as [Hc' Hb'].
  destruct (IH _ Hc') as [? ?]. split; congruence.
Qed.

Lemma exec_unset (o : Op) (st : State) :
  _client (self st) = None ->
  (_client (self (exec o st)) = None /\ built (exec o st) = built st) \/
  (_client (self (exec o st)) = Some (next_handle st) /\
   built (exec o st) = built st ++ [next_handle st]).
Proof.
  intros Hc. destruct (is_setter o) eqn:Hs.
  - destruct o; try discriminate. left. by simpl.
  - destruct (exec_frame o st Hs) as [_ H]. by rewrite Hc in H.
Qed.

Lemma exec_all_built (ops : list Op) (st : State) :
  (length (built (exec_all ops st)) <= S (length (built st)))%nat.
Proof.
  revert st. induction ops as [|o ops IH]; intros st; simpl; [lia|].
  destruct (_client (self st)) as [h|] eqn:Hc.
  - destruct (exec_cached o st h Hc) as [Hc' Hb'].
    destruct (exec_all_cached ops _ h Hc') as [_ Hb]. rewrite Hb, Hb'. lia.
  - destruct (exec_unset o st Hc) as [[Hc' Hb']|[Hc' Hb']].
    + specialize (IH (exec o st)). rewrite Hb' in IH. done.
    + destruct (exec_all_cached ops _ _ Hc') as [_ Hb]. rewrite Hb, Hb'.
      rewrite length_app. simpl. lia.
Qed.

(** C4. The remote handle is built at most once per instance: on the
    first read of the [client] property, from the token stored at that
    moment and the fixed portal address.  Every later read returns that
    same handle without building another, whatever operations ran in
    between, and setting the token afterwards neither changes nor rebuilds
    the cached handle. *)
Theorem client_built_once (st : State) :
  (forall ops : list Op,
     (length (built (exec_all ops st)) <= S (length (built st)))%nat) /\
  (_client (self st) = None ->
     let h := {| handle_id := length (built st); domain := WSLCB_PORTAL_URL;
                 token := _app_token (self st) |} in
     snd (client st) = inr h /\
     _client (self (fst (client st))) = Some h /\
     built (fst (client st)) = built st ++ [h]) /\
  (forall h : Handle, _client (self st) = Some h ->
     forall ops : list Op,
       client (exec_all ops st) = (exec_all ops st, inr h) /\
       built (exec_all ops st) = built st) /\
  (forall (h : Handle) (value : string), _client (self st) = Some h ->
     let st' := fst (set_app_token value st) in
     _client (self st') = Some h /\ built st' = built st /\
     client st' = (st', inr h)).
Proof.
  split; [|split; [|split]].
  - intros ops. apply exec_all_built.
  - intros Hc h. by rewrite (client_first _ Hc).
  - intros h Hc ops. destruct (exec_all_cached ops st h Hc) as [Hc' Hb].
    split; [by apply client_cached | done].
  - intros h value Hc st'. subst st'. rewrite set_app_token_run. simpl.
    repeat split; [done|]. by apply client_cached.
Qed.

(** C10. None of the six fetch operations changes the stored token; the
    setter does.  The cached-handle field changes at most once: an
    operation either leaves it as it is or takes it from unset to the
    handle built at that moment, and once set it keeps its value through
    every later operation. *)
Theorem fetch_operations_frame (st : State) (id ord : string) :
  (_app_token (self (fst (get_dataset_metadata remote id st)))
     = _app_token (self st) /\
   _app_token (self (fst (get_dataset_count remote id st)))
     = _app_token (self st) /\
   _app_token (self (fst (get_dataset remote id st)))
     = _app_token (self st) /\
   _app_token (self (fst (get_entire_dataset remote id ord st)))
     = _app_token (self st) /\
   _app_token (self (fst (get_dataframe remote from_records id st)))
     = _app_token (self st) /\
   _app_token (self (fst (dataset_last_updated remote localtime id st)))
     = _app_token (self st)) /\
  (forall value : string,
     _app_token (self (fst (set_app_token value st))) = value) /\
  (forall o : Op,
     _client (self (exec o st)) = _client (self st) \/
     (_client (self st) = None /\
      _client (self (exec o st)) = Some (next_handle st))) /\
  (forall (ops : list Op) (h : Handle),
     _client (self st) = Some h ->
     _client (self (exec_all ops st)) = Some h).
Proof.
  split; [|split; [|split]].
  - repeat split.
    + exact (proj1 (exec_frame (OpMetadata id) st eq_refl)).
    + exact (proj1 (exec_frame (OpCount id) st eq_refl)).
    + exact (proj1 (exec_frame (OpPage id) st eq_refl)).
    + exact (proj1 (exec_frame (OpAll id ord) st eq_refl)).
    + exact (proj1 (exec_frame (OpDataframe id) st eq_refl)).
    + exact (proj1 (exec_frame (OpLastUpdated id) st eq_refl)).
  - intros value. reflexivity.
  - intros o. destruct (_client (self st)) as [h|] eqn:Hc.
    + left. by destruct (exec_cached o st h Hc).
    + destruct (exec_unset o st Hc) as [[Hc' _]|[Hc' _]]; [by left|by right].
  - intros ops h Hc. by destruct (exec_all_cached ops st h Hc).
Qed.

(** *** Single queries *)

Lemma get_dataset_count_run (st : State) (id : string) :
  exists h : Handle,
    let c := mkCall h (count_request id)
                    (snd (remote h (count_request id) (world st))) in
    let st1 := fst (get_dataset_count remote id st) in
    calls st1 = calls st ++ [c] /\
    _client (self st1) = Some h /\
    framed st1 = framed st /\
    snd (get_dataset_count remote id st) =
      match resp c with
      | inl e => inl e
      | inr metadata =>
          match py_index metadata 0 with
          | inl e => inl e
          | inr row =>
              match py_key row "count" with
              | inl e => inl e
              | inr field => py_int field
              end
          end
      end.
Proof.
  unfold get_dataset_count, bind.
  destruct (_client (self st)) as [h|] eqn:Hc;
    [exists h; rewrite (client_cached _ _ Hc)
    |exists (next_handle st); rewrite (client_first _ Hc)];
    rewrite send_run; simpl;
    destruct (snd (remote _ _ (world st))) as [e|metadata]; simpl; try done;
    unfold lift; destruct (py_index metadata 0) as [e|row]; simpl; try done;
    destruct (py_key row "count") as [e|field]; simpl; try done.
Qed.

Lemma get_dataset_run (st : State) (id : string) :
  exists h : Handle,
    let c := mkCall h (dataset_request id)
                    (snd (remote h (dataset_request id) (world st))) in
    let st1 := fst (get_dataset remote id st) in
    calls st1 = calls st ++ [c] /\
    framed st1 = framed st /\
    snd (get_dataset remote id st) = resp c.
Proof.
  unfold get_dataset, bind.
  destruct (_client (self st)) as [h|] eqn:Hc;
    [exists h; rewrite (client_cached _ _ Hc)
    |exists (next_handle st); rewrite (client_first _ Hc)];
    by rewrite send_run.
Qed.

(** C6. [get_dataset] issues exactly one remote query, whose only
    parameter is a limit of 100,000 rows, and returns its answer: whatever
    the dataset holds, no more than 100,000 rows are requested. *)
Theorem get_dataset_single_capped_query (st : State) (id : string) :
  exists c : Call,
    calls (fst (get_dataset remote id st)) = calls st ++ [c] /\
    req c = Get id {| select := None; order := None; offset := None;
                      limit := Some 100000 |} /\
    snd (get_dataset remote id st) = resp c.
Proof.
  destruct (get_dataset_run st id) as [h (Hcalls & _ & Hres)].
  eexists. split; [exact Hcalls|]. split; [reflexivity | exact Hres].
Qed.



(** *** The paging loop *)

(** One turn of the loop, with the handle cached. *)
Lemma fetch_pages_cons (h : Handle) (id ord : string) (lim o : Z)
    (offs : list Z) (acc : list PyVal) (st : State) :
  _client (self st) = Some h ->
  fetch_pages remote id ord lim (o :: offs) acc st =
    let answer := snd (remote h (page_request id ord o lim) (world st)) in
    let st2 :=
      {| self := self st;
         world := fst (remote h (page_request id ord o lim) (world st));
         calls := calls st ++ [mkCall h (page_request id ord o lim) answer];
         built := built st; framed := framed st |} in
    match answer with
    | inl e => (st2, inl e)
    | inr page =>
        match py_iter page with
        | inl e => (st2, inl e)
        | inr rows => fetch_pages remote id ord lim offs (acc ++ rows) st2
        end
    end.
Proof.
  intros Hc. simpl. unfold bind. rewrite (client_cached _ _ Hc), send_run.
  destruct (snd (remote h _ (world st))) as [e|page]; [done|].
  unfold lift. by destruct (py_iter page).
Qed.

(** A run of the loop over [offs], started with the handle cached: the
    calls it adds are [good ++ bad], one per offset visited and in the
    order of [offs]; every call of [good] yielded rows; [bad] is empty
    when the loop ran to its end, and holds the one call that made it
    raise otherwise. *)
Lemma fetch_pages_run (h : Handle) (id ord : string) (lim : Z)
    (offs : list Z) (acc : list PyVal) (st : State) :
  _client (self st) = Some h ->
  exists (good bad : list Call) (got : list (list PyVal)),
    calls (fst (fetch_pages remote id ord lim offs acc st))
      = calls st ++ good ++ bad /\
    req <$> (good ++ bad)
      = (fun k => page_request id ord k lim)
          <$> take (length (good ++ bad)) offs /\
    Forall2 (fun c rows => returned_rows c = inr rows) good got /\
    ((bad = [] /\ length good = length offs /\
      snd (fetch_pages remote id ord lim offs acc st)
        = inr (acc ++ concat got)) \/
     (exists c e, bad = [c] /\ returned_rows c = inl e /\
        snd (fetch_pages remote id ord lim offs acc st) = inl e)).
Proof.
  revert acc st. induction offs as [|o offs IH]; intros acc st Hc.
  - exists [], [], []. simpl. rewrite !app_nil_r.
    repeat split; [constructor|]. by left.
  - rewrite (fetch_pages_cons _ _ _ _ _ _ _ _ Hc). cbv zeta.
    set (st2 := @mkState World _ _ _ _ _).
    destruct (snd (remote h (page_request id ord o lim) (world st)))
      as [e|page] eqn:Hr.
    + eexists [], [_], []. simpl. repeat split; [constructor|].
      right. by eexists _, e.
    + destruct (py_iter page) as [e|rows] eqn:Hi.
      * eexists [], [_], []. simpl. repeat split; [constructor|].
        right. eexists _, e. split; [done|]. split; [|done].
        unfold returned_rows. by simpl.
      * destruct (IH (acc ++ rows) st2 Hc)
          as (good & bad & got & Hcalls & Hreq & Hgood & Hend).
        eexists (_ :: good), bad, (rows :: got).
        split; [|split; [|split]].
        -- rewrite Hcalls. subst st2. simpl. by rewrite <- app_assoc.
        -- rewrite <- app_comm_cons, fmap_cons. simpl length. simpl take.
           rewrite fmap_cons. by f_equal.
        -- constructor; [|done]. unfold returned_rows. by simpl.
        -- destruct Hend as [(-> & Hlen & Hres)|(c' & e & -> & Hc' & Hres)].
           ++ left. repeat split; [simpl; by rewrite Hlen|].
              rewrite Hres. simpl. by rewrite app_assoc.
           ++ right. by exists c', e.
Qed.

Lemma get_entire_dataset_unfold (st : State) (id ord : string) :
  get_entire_dataset remote id ord st =
    match snd (get_dataset_count remote id st) with
    | inl e => (fst (get_dataset_count remote id st), inl e)
    | inr count =>
        fetch_pages remote id ord 100000 (py_range 0 count 100000) []
          (fst (get_dataset_count remote id st))
    end.
Proof.
  unfold get_entire_dataset, bind.
  by destruct (get_dataset_count remote id st) as [st1 [e|n]].
Qed.

(** The calls of a whole run: the count query [c0], then the page queries
    [good ++ bad] of the loop. *)
Lemma get_entire_dataset_run (st : State) (id ord : string) :
  exists (c0 : Call) (good bad : list Call) (got : list (list PyVal)),
    calls (fst (get_dataset_count remote id st)) = calls st ++ [c0] /\
    req c0 = count_request id /\
    (forall e, resp c0 = inl e ->
       snd (get_dataset_count remote id st) = inl e) /\
    calls (fst (get_entire_dataset remote id ord st))
      = calls (fst (get_dataset_count remote id st)) ++ good ++ bad /\
    Forall2 (fun c rows => returned_rows c = inr rows) good got /\
    match snd (get_dataset_count remote id st) with
    | inl e =>
        good = [] /\ bad = [] /\
        snd (get_entire_dataset remote id ord st) = inl e
    | inr count =>
        req <$> (good ++ bad)
          = (fun k => page_request id ord k 100000)
              <$> take (length (good ++ bad)) (py_range 0 count 100000) /\
        ((bad = [] /\ length good = length (py_range 0 count 100000) /\
          snd (get_entire_dataset remote id ord st) = inr (concat got)) \/
         (exists c e, bad = [c] /\ returned_rows c = inl e /\
            snd (get_entire_dataset remote id ord st) = inl e))
    end.
Proof.
  destruct (get_dataset_count_run st id) as [h (Hcalls & Hc & _ & Hres)].
  rewrite get_entire_dataset_unfold.
  destruct (snd (get_dataset_count remote id st)) as [e|count] eqn:Hcount.
  - eexists _, [], [], []. split; [exact Hcalls|]. split; [reflexivity|].
    split; [|split; [by rewrite app_nil_r|split; [constructor|done]]].
    intros e' He'. simpl in Hres, He'. rewrite He' in Hres. congruence.
  - destruct (fetch_pages_run h id ord 100000 (py_range 0 count 100000) []
                _ Hc) as (good & bad & got & Hcalls' & Hreq & Hgood & Hend).
    eexists _, good, bad, got. split; [exact Hcalls|].
    split; [reflexivity|]. split; [|done].
    intros e' He'. simpl in Hres, He'. rewrite He' in Hres. congruence.
Qed.


Lemma fmap_eq_Forall {A B C} (f : A -> C) (g : B -> C) (l : list A)
    (k : list B) :
  f <$> l = g <$> k -> Forall (fun a => exists b, f a = g b) l.
Proof.
  revert k. induction l as [|a l IH]; intros [|b k] Heq; try done.
  injection Heq as Hab Hlk. constructor; [by exists b | by eapply IH].
Qed.

(** Among the calls of a run, one that raised can only be the last. *)
Lemma failed_call_is_last (good bad pre post : list Call) (c : Call)
    (e : Exn) (got : list (list PyVal)) :
  Forall2 (fun c rows => returned_rows c = inr rows) good got ->
  bad = [] \/ (exists c', bad = [c']) ->
  pre ++ c :: post = good ++ bad ->
  resp c = inl e ->
  bad = [c] /\ post = [].
Proof.
  intros Hgood Hbad. revert pre.
  induction Hgood as [|g rows good got Hg _ IH]; intros pre Heq He.
  - simpl in Heq. destruct Hbad as [->|[c' ->]].
    + by destruct pre.
    + destruct pre as [|p pre]; [by injection Heq as -> ->|].
      injection Heq as _ Heq. by destruct pre.
  - destruct pre as [|p pre].
    + injection Heq as -> _. unfold returned_rows in Hg.
      by rewrite He in Hg.
    + injection Heq as _ Heq. by apply (IH pre).
Qed.

(** C2. When a remote call issued by [get_entire_dataset] raises, the
    whole operation raises that same exception, so the caller gets no
    rows at all, those of the pages already fetched included; and the
    failed call is the last one issued: it is not retried and nothing
    follows it. *)
Theorem page_failure_aborts (st : State) (id ord : string)
    (pre post : list Call) (c : Call) (e : Exn) :
  calls (fst (get_entire_dataset remote id ord st))
    = calls st ++ pre ++ c :: post ->
  resp c = inl e ->
  snd (get_entire_dataset remote id ord st) = inl e /\ post = [].
Proof.
  intros Hcalls He.
  destruct (get_entire_dataset_run st id ord)
    as (c0 & good & bad & got & Hc0 & _ & Hfail & Hall & Hgood & Hend).
  rewrite Hc0, <- app_assoc in Hall. rewrite Hall in Hcalls.
  apply app_inv_head in Hcalls. simpl in Hcalls.
  destruct (snd (get_dataset_count remote id st)) as [e0|count] eqn:Hcount.
  - destruct Hend as (-> & -> & Hres). simpl in Hcalls.
    destruct pre as [|p pre]; [|injection Hcalls as _ Hcalls; by destruct pre].
    injection Hcalls as <- <-. split; [|done].
    rewrite Hres. specialize (Hfail e He). congruence.
  - destruct Hend as [_ Hend].
    destruct pre as [|p pre].
    + injection Hcalls as <- _. by specialize (Hfail e He).
    + injection Hcalls as _ Hcalls. symmetry in Hcalls.
      assert (bad = [] \/ (exists c', bad = [c'])) as Hbad.
      { destruct Hend as [(-> & _)|(c' & e' & -> & _)]; eauto. }
      destruct (failed_call_is_last good bad pre post c e got Hgood Hbad
                  Hcalls He) as [-> ->].
      split; [|done].
      destruct Hend as [(? & _)|(c' & e' & [= <-] & Hc' & Hres)]; [done|].
      unfold returned_rows in Hc'. rewrite He in Hc'. congruence.
Qed.

(** C3. The sequence [get_entire_dataset] returns is the concatenation of
    the rows of its page queries, taken in the order the queries were
    issued, which is by strictly ascending offset; the rows of one page
    stay in the order its answer had them, and nothing is added, dropped
    or moved. *)
Theorem get_entire_dataset_order (st : State) (id ord : string)
    (rows : list PyVal) :
  snd (get_entire_dataset remote id ord st) = inr rows ->
  exists (c0 : Call) (pages : list Call) (offsets : list Z)
         (got : list (list PyVal)),
    calls (fst (get_entire_dataset remote id ord st))
      = calls st ++ c0 :: pages /\
    req c0 = count_request id /\
    req <$> pages = (fun k => page_request id ord k 100000) <$> offsets /\
    StronglySorted Z.lt offsets /\
    Forall2 (fun c page_rows => returned_rows c = inr page_rows) pages got /\
    rows = concat got.
Proof.
  intros Hrows.
  destruct (get_entire_dataset_run st id ord)
    as (c0 & good & bad & got & Hc0 & Hreq0 & _ & Hall & Hgood & Hend).
  destruct (snd (get_dataset_count remote id st)) as [e0|count].
  { destruct Hend as (_ & _ & Hres). congruence. }
  destruct Hend as [Hreq [(-> & Hlen & Hres)|(c' & e' & _ & _ & Hres)]];
    [|congruence].
  rewrite app_nil_r in *. rewrite Hlen, firstn_all in Hreq.
  exists c0, good, (py_range 0 count 100000), got.
  split; [by rewrite Hall, Hc0, <- app_assoc|].
  split; [done|]. split; [done|].
  split; [by apply py_range_ascending|]. split; [done|]. congruence.
Qed.

(** C9. Every page query of [get_entire_dataset] asks for exactly 100,000
    rows, the last one included: when the run returns for a count
    [N > 0], its final query starts at an offset [k] with no more than
    100,000 rows left ([0 < N - k <= 100000]) and still carries the full
    limit. *)
Theorem page_requests_full_limit (st : State) (id ord : string) :
  exists (c0 : Call) (pages : list Call),
    calls (fst (get_entire_dataset remote id ord st))
      = calls st ++ c0 :: pages /\
    req c0 = count_request id /\
    Forall (fun c => exists k,
              req c = Get id {| select := None; order := Some ord;
                                offset := Some k; limit := Some 100000 |})
           pages /\
    (forall N rows,
       snd (get_dataset_count remote id st) = inr N ->
       snd (get_entire_dataset remote id ord st) = inr rows ->
       0 < N ->
       exists c k,
         last pages = Some c /\
         req c = Get id {| select := None; order := Some ord;
                           offset := Some k; limit := Some 100000 |} /\
         0 < N - k <= 100000).
Proof.
  destruct (get_entire_dataset_run st id ord)
    as (c0 & good & bad & got & Hc0 & Hreq0 & _ & Hall & Hgood & Hend).
  exists c0, (good ++ bad).
  split; [by rewrite Hall, Hc0, <- app_assoc|]. split; [done|].
  destruct (snd (get_dataset_count remote id st)) as [e0|count].
  { destruct Hend as (-> & -> & _). split; [constructor | done]. }
  destruct Hend as [Hreq Hend]. split.
  { apply fmap_eq_Forall in Hreq. eapply Forall_impl; [exact Hreq|].
    intros c [k Hk]. by exists k. }
  intros N rows [= <-] Hrows HN.
  destruct Hend as [(-> & Hlen & _)|(c' & e' & _ & _ & Hres)]; [|congruence].
  rewrite app_nil_r in *. rewrite Hlen, firstn_all in Hreq.
  pose proof (py_range_length count 100000 ltac:(lia)) as Hn.
  pose proof (proj1 (ceil_div_spec count 100000 _ ltac:(lia)) eq_refl) as Hq.
  assert (Hlast : last (py_range 0 count 100000)
                  = Some (Z.of_nat (pred (length (py_range 0 count 100000)))
                          * 100000)).
  { rewrite last_lookup. apply py_range_lookup. lia. }
  apply (f_equal last) in Hreq. rewrite !fmap_last, Hlast in Hreq.
  destruct (last good) as [c|]; [|done]. injection Hreq as Hc.
  eexists c, _. split; [done|]. split; [exact Hc|]. lia.
Qed.



End Facts.

(** ** The operations on concrete services *)

(** The scenario of the specification: 250000 rows, pages of 100000. *)
Example scenario_250000 :
  (fun c => (request_offset (req c), row_count (returned_rows c)))
    <$> calls (fst (get_entire_dataset (Demo.remote "250000" 100000)
                      "bhbp-x4eb" "ubi" (Demo.fresh 250000 "t")))
    = [(None, Some 1); (Some 0, Some 100000); (Some 100000, Some 100000);
       (Some 200000, Some 50000)] /\
  row_count (snd (get_entire_dataset (Demo.remote "250000" 100000)
                    "bhbp-x4eb" "ubi" (Demo.fresh 250000 "t")))
    = Some 250000.
Proof. vm_compute. repeat split. Qed.

(** A service that serves two rows per query: the result keeps the order
    of the pages and of the rows inside each page. *)
Example short_pages :
  snd (get_entire_dataset (Demo.remote "150000" 2) "bhbp-x4eb" "ubi"
         (Demo.fresh 150000 "t"))
  = inr [Demo.row 0; Demo.row 1; Demo.row 100000; Demo.row 100001].
Proof. vm_compute. reflexivity. Qed.


(** The second page query fails: the two rows of the first page are lost
    and the third window is never asked for. *)
Lemma page_failure_aborts_witness :
  (fun c => (request_offset (req c), row_count (returned_rows c)))
    <$> calls (fst (get_entire_dataset Demo.flaky "bhbp-x4eb" "ubi"
                      (Demo.fresh tt "t")))
    = [(None, Some 1); (Some 0, Some 2); (Some 100000, None)] /\
  snd (get_entire_dataset Demo.flaky "bhbp-x4eb" "ubi" (Demo.fresh tt "t"))
    = inl (Raised "HTTPError").
Proof.
  split; [vm_compute; reflexivity|].
  set (h := {| handle_id := 0; domain := WSLCB_PORTAL_URL; token := "t" |}).
  refine (proj1 (page_failure_aborts Demo.flaky (Demo.fresh tt "t")
            "bhbp-x4eb" "ubi"
            [mkCall h (count_request "bhbp-x4eb")
               (inr (PyList [PyDict [("count", PyStr "250000")]]));
             mkCall h (page_request "bhbp-x4eb" "ubi" 0 100000)
               (inr (PyList [Demo.row 0; Demo.row 1]))]
            []
            (mkCall h (page_request "bhbp-x4eb" "ubi" 100000 100000)
               (inl (Raised "HTTPError")))
            (Raised "HTTPError") _ _)).
  - vm_compute. reflexivity.
  - reflexivity.
Defined.

Lemma get_entire_dataset_order_witness :
  exists (c0 : Call) (pages : list Call) (offsets : list Z)
         (got : list (list PyVal)),
    calls (fst (get_entire_dataset (Demo.remote "150000" 2) "bhbp-x4eb" "ubi"
                  (Demo.fresh 150000 "t")))
      = [] ++ c0 :: pages /\
    req c0 = count_request "bhbp-x4eb" /\
    req <$> pages
      = (fun k => page_request "bhbp-x4eb" "ubi" k 100000) <$> offsets /\
    StronglySorted Z.lt offsets /\
    Forall2 (fun c page_rows => returned_rows c = inr page_rows) pages got /\
    [Demo.row 0; Demo.row 1; Demo.row 100000; Demo.row 100001] = concat got.
Proof.
  apply (get_entire_dataset_order (Demo.remote "150000" 2)
           (Demo.fresh 150000 "t") "bhbp-x4eb" "ubi").
  vm_compute. reflexivity.
Defined.

(** One handle, built from the token "first", survives a session that
    sets the token to "second". *)
Lemma client_built_once_witness :
  (snd (client (Demo.fresh 3 "first")) = inr Demo.first_handle /\
   _client (self Demo.opened) = Some Demo.first_handle /\
   built Demo.opened = [] ++ [Demo.first_handle]) /\
  (client Demo.after_session = (Demo.after_session, inr Demo.first_handle) /\
   built Demo.after_session = built Demo.opened) /\
  _app_token (self Demo.after_session) = "second".
Proof.
  split; [|split].
  - apply (proj1 (proj2 (client_built_once (Demo.remote "3" 100000)
                           Demo.from_records Demo.localtime
                           (Demo.fresh 3 "first")))).
    reflexivity.
  - apply (proj1 (proj2 (proj2 (client_built_once (Demo.remote "3" 100000)
                                  Demo.from_records Demo.localtime
                                  Demo.opened)))).
    reflexivity.
  - vm_compute. reflexivity.
Defined.

Lemma fetch_operations_frame_witness :
  _client (self (exec_all (Demo.remote "3" 100000) Demo.from_records
                   Demo.localtime
                   [OpDataframe "bhbp-x4eb"; OpSetToken "second";
                    OpLastUpdated "bhbp-x4eb"] Demo.opened))
  = Some Demo.first_handle.
Proof.
  apply (proj2 (proj2 (proj2 (fetch_operations_frame (Demo.remote "3" 100000)
                                Demo.from_records Demo.localtime Demo.opened
                                "bhbp-x4eb" "ubi")))).
  reflexivity.
Defined.





Example get_dataframe_known_id :
  snd (get_dataframe (Demo.remote "3" 100000) Demo.from_records "w7wg-8m52"
         (Demo.fresh 3 "t"))
  = inr ["date"; "license_number"; "city_name"; "county_name"; "activity"].
Proof. vm_compute. reflexivity. Qed.

(** 250000 rows: the last query starts at 200000 and asks for 100000. *)
Lemma page_requests_full_limit_witness :
  exists (c0 c : Call) (pages : list Call) (k : Z),
    calls (fst (get_entire_dataset (Demo.remote "250000" 2) "bhbp-x4eb" "ubi"
                  (Demo.fresh 250000 "t"))) = [] ++ c0 :: pages /\
    last pages = Some c /\
    req c = Get "bhbp-x4eb" {| select := None; order := Some "ubi";
                               offset := Some k; limit := Some 100000 |} /\
    0 < 250000 - k <= 100000.
Proof.
  destruct (page_requests_full_limit (Demo.remote "250000" 2)
              (Demo.fresh 250000 "t") "bhbp-x4eb" "ubi")
    as (c0 & pages & Hcalls & _ & _ & Hlast).
  destruct (Hlast 250000 _ ltac:(vm_compute; reflexivity)
              ltac:(vm_compute; reflexivity) ltac:(lia))
    as (c & k & Hc & Hreq & Hk).
  by exists c0, c, pages, k.
Defined.

(** ** Further properties of the operations *)

Section More.

Context {World : Type}.
Variable remote : Handle -> Request -> World -> World * Res PyVal.
Context {DataFrame StructTime : Type}.
Variable from_records : PyVal -> list string -> Res DataFrame.
Variable localtime : PyVal -> Res StructTime.

Local Abbreviation State := (State World).
Local Abbreviation M := (M World).
Local Abbreviation client := (@client World).
Local Abbreviation served := (@served World).
Local Abbreviation exec := (exec remote from_records localtime).
Local Abbreviation exec_all := (exec_all remote from_records localtime).

(** *** One handle per instance *)

(** A remote query as every operation issues it: read the property, send
    through the handle it yields. *)
Lemma query_run (r : Request) (st : State) :
  bind client (fun h => send remote h r) st =
    ({| self := {| _app_token := _app_token (self st);
                   _client := Some (current_handle st) |};
        world := fst (remote (current_handle st) r (world st));
        calls := calls st
                 ++ [mkCall (current_handle st) r
                       (snd (remote (current_handle st) r (world st)))];
        built := match _client (self st) with
                 | Some _ => built st
                 | None => built st ++ [current_handle st]
                 end;
        framed := framed st |},
     snd (remote (current_handle st) r (world st))).
Proof.
  unfold bind, current_handle.
  destruct (_client (self st)) as [h|] eqn:Hc.
  - rewrite (client_cached _ _ Hc), send_run.
    destruct st as [[tok cl] w cs bs fs]. simpl in *. by subst cl.
  - by rewrite (client_first _ Hc), send_run.
Qed.

Lemma bind_query {A} (r : Request) (k : PyVal -> M A) (st : State) :
  bind client (fun h => bind (send remote h r) k) st
  = bind (bind client (fun h => send remote h r)) k st.
Proof.
  unfold bind. destruct (client st) as [st1 [e|h]]; [done|].
  by destruct (send remote h r st1) as [st2 [e|v]].
Qed.

Lemma served_refl (st : State) : served st st.
Proof.
  split; [done|]. split; [done|]. exists []. by rewrite app_nil_r.
Qed.

Lemma served_trans (a b c : State) : served a b -> served b c -> served a c.
Proof.
  intros (Hh1 & Hs1 & n1 & Hc1 & Hv1) (Hh2 & Hs2 & n2 & Hc2 & Hv2).
  split; [congruence|]. split; [auto|].
  exists (n1 ++ n2). split; [by rewrite Hc2, Hc1, <- app_assoc|].
  apply Forall_app. split; [done|]. by rewrite <- Hh1.
Qed.

Lemma served_client : respects served client.
Proof.
  intros st. unfold served, current_handle.
  destruct (_client (self st)) as [h|] eqn:Hc.
  - rewrite (client_cached _ _ Hc). simpl. rewrite Hc.
    split; [done|]. split; [done|]. exists []. by rewrite app_nil_r.
  - rewrite (client_first _ Hc). simpl.
    split; [done|]. split; [by eauto|]. exists []. by rewrite app_nil_r.
Qed.

Lemma served_query (r : Request) :
  respects served (bind client (fun h => send remote h r)).
Proof.
  intros st. rewrite query_run. unfold served. simpl.
  split; [done|]. split; [by eauto|].
  eexists. split; [reflexivity|]. by repeat constructor.
Qed.

Lemma served_from_records d c :
  respects served (DataFrame_from_records from_records d c).
Proof.
  intros st. split; [done|]. split; [done|]. exists []. simpl.
  by rewrite app_nil_r.
Qed.

Lemma served_fetch_pages id ord lim offs acc :
  respects served (fetch_pages remote id ord lim offs acc).
Proof.
  pose proof served_refl as Hr. pose proof served_trans as Ht.
  revert acc. induction offs as [|o offs IH]; intros acc; simpl.
  - by apply respects_ret.
  - intros st. rewrite bind_query. revert st.
    apply respects_bind; [done | apply served_query|]. intros page.
    apply respects_bind; [done | by apply respects_lift|]. intros rows.
    apply IH.
Qed.

Lemma exec_served (o : Op) (st : State) :
  is_setter o = false -> served st (exec o st).
Proof.
  pose proof served_refl as Hr. pose proof served_trans as Ht.
  destruct o; simpl; intros Hset; try discriminate.
  - apply served_query.
  - unfold get_dataset_count. rewrite bind_query. revert st.
    apply respects_bind; [done | apply served_query|]. intros metadata.
    repeat (apply respects_bind; [done | by apply respects_lift|]; intros ?).
    by apply respects_lift.
  - apply served_query.
  - revert st. apply respects_bind; [done| |].
    + intros st. unfold get_dataset_count. rewrite bind_query. revert st.
      apply respects_bind; [done | apply served_query|]. intros metadata.
      repeat (apply respects_bind; [done | by apply respects_lift|]; intros ?).
      by apply respects_lift.
    + intros n. apply served_fetch_pages.
  - revert st. apply respects_bind; [done | apply served_query|]. intros d.
    apply respects_bind; [done | by apply respects_lift|]. intros c.
    apply respects_bind; [done | apply served_from_records|]. intros f.
    by apply respects_ret.
  - revert st. apply respects_bind; [done | apply served_query|]. intros d.
    apply respects_bind; [done | by apply respects_lift|]. intros c.
    apply respects_bind; [done | by apply respects_lift|]. intros f.
    by apply respects_ret.
  - apply served_refl.
  - apply served_client.
Qed.

(** An operation that reads the property behaves the same whether or not
    the property was read just before. *)
Lemma client_absorb {A} (k : Handle -> M A) (st : State) :
  bind client k st = bind client k (fst (client st)).
Proof.
  unfold bind. destruct (_client (self st)) as [h|] eqn:Hc.
  - rewrite (client_cached _ _ Hc). simpl. by rewrite (client_cached _ _ Hc).
  - by rewrite (client_first _ Hc).
Qed.

Lemma bind_cong {A B} (m : M A) (k : A -> M B) (st st' : State) :
  m st = m st' -> bind m k st = bind m k st'.
Proof. unfold bind. by intros ->. Qed.

Lemma exec_absorb (o : Op) (st : State) :
  uses_client o = true -> exec o st = exec o (fst (client st)).
Proof.
  destruct o; simpl; intros Ho; try discriminate.
  - unfold get_dataset_metadata. by rewrite client_absorb.
  - unfold get_dataset_count. by rewrite client_absorb.
  - unfold get_dataset. by rewrite client_absorb.
  - f_equal. apply bind_cong, client_absorb.
  - f_equal. apply bind_cong, client_absorb.
  - f_equal. apply bind_cong, client_absorb.
  - destruct (_client (self st)) as [h|] eqn:Hc.
    + rewrite (client_cached _ _ Hc). simpl.
      by rewrite (client_cached _ _ Hc).
    + by rewrite (client_first _ Hc).
Qed.

Lemma exec_through (o : Op) (st : State) :
  through (current_handle st) st (exec o st).
Proof.
  destruct (is_setter o) eqn:Hs.
  - destruct o; try discriminate. exists []. simpl. by rewrite app_nil_r.
  - by destruct (exec_served o st Hs) as (_ & _ & Hthrough).
Qed.

Lemma exec_caches (o : Op) (st : State) :
  uses_client o = true ->
  _client (self (exec o st)) = Some (current_handle st).
Proof.
  intros Ho.
  assert (Hs : is_setter o = false) by (by destruct o).
  pose proof (exec_served o st Hs) as (Hh & _ & _).
  pose proof (exec_served o (fst (client st)) Hs) as (_ & Hsome & _).
  rewrite <- (exec_absorb o st Ho) in Hsome.
  destruct Hsome as [h Hc].
  { destruct (_client (self st)) as [h|] eqn:Hc.
    - rewrite (client_cached _ _ Hc). simpl. by rewrite Hc.
    - rewrite (client_first _ Hc). simpl. by eauto. }
  rewrite Hc. f_equal. rewrite <- Hh. unfold current_handle at 1.
  by rewrite Hc.
Qed.

(** X1. Whatever the state, all the remote calls of one operation go
    through one handle: the cached one, or the one built from the stored
    token when none is cached.  Every operation that reads the [client]
    property leaves that handle cached, also when it raises. *)
Theorem operation_single_handle (o : Op) (st : State) :
  through (current_handle st) st (exec o st) /\
  (uses_client o = true ->
   _client (self (exec o st)) = Some (current_handle st)).
Proof.
  split.
  - apply exec_through.
  - apply exec_caches.
Qed.

Lemma exec_through_cached (o : Op) (st : State) (h : Handle) :
  _client (self st) = Some h ->
  _client (self (exec o st)) = Some h /\ through h st (exec o st).
Proof.
  intros Hc. split; [by apply exec_cached|].
  pose proof (exec_through o st) as Ht.
  unfold current_handle in Ht. by rewrite Hc in Ht.
Qed.

Lemma through_trans (h : Handle) (a b c : State) :
  through h a b -> through h b c -> through h a c.
Proof.
  intros (n1 & Hc1 & Hv1) (n2 & Hc2 & Hv2). exists (n1 ++ n2).
  split; [by rewrite Hc2, Hc1, <- app_assoc|]. by apply Forall_app.
Qed.

Lemma exec_all_through_cached (ops : list Op) (st : State) (h : Handle) :
  _client (self st) = Some h -> through h st (exec_all ops st).
Proof.
  revert st. induction ops as [|o ops IH]; intros st Hc.
  - exists []. simpl. by rewrite app_nil_r.
  - destruct (exec_through_cached o st h Hc) as [Hc' Ht].
    simpl. eapply through_trans; [exact Ht | by apply IH].
Qed.

(** X2. Once a handle is cached, it stays the cached handle and every
    remote call of every later operation goes through it, whatever the
    sequence of operations: a token set after the first use never reaches
    the service. *)
Theorem calls_through_cached_handle (ops : list Op) (st : State)
    (h : Handle) :
  _client (self st) = Some h ->
  through h st (exec_all ops st) /\
  _client (self (exec_all ops st)) = Some h.
Proof.
  intros Hc. split.
  - by apply exec_all_through_cached.
  - by destruct (exec_all_cached remote from_records localtime ops st h Hc).
Qed.

(** X3. Over its whole life an instance talks to the service through a
    single handle: for every sequence of operations from every state there
    is one handle that all the calls went through. *)
Theorem instance_single_handle (ops : list Op) (st : State) :
  exists h : Handle, through h st (exec_all ops st).
Proof.
  revert st. induction ops as [|o ops IH]; intros st.
  - exists (current_handle st), []. simpl. by rewrite app_nil_r.
  - simpl. pose proof (exec_through o st) as Ht.
    destruct (uses_client o) eqn:Ho.
    + exists (current_handle st). eapply through_trans; [exact Ht|].
      apply exec_all_through_cached. by apply exec_caches.
    + destruct (IH (exec o st)) as [h (news & Hcalls & Hvia)].
      exists h, news. split; [|done]. rewrite Hcalls.
      by destruct o.
Qed.

(** X4. The token a caller sets is the token the getter returns after any
    sequence of other operations: only the setter changes it. *)
Theorem token_survives_operations (value : string) (ops : list Op)
    (st : State) :
  Forall (fun o => is_setter o = false) ops ->
  snd (app_token (exec_all ops (fst (set_app_token value st)))) = inr value.
Proof.
  intros Hops. simpl.
  assert (forall st0 : State,
            _app_token (self (exec_all ops st0)) = _app_token (self st0))
    as Hkeep.
  { induction Hops as [|o ops Ho _ IH]; intros st0; [done|]. simpl.
    rewrite IH. exact (proj1 (exec_frame remote from_records localtime
                                 o st0 Ho)). }
  by rewrite Hkeep.
Qed.

(** *** Metadata and the last-update time *)

Lemma get_dataset_metadata_run (st : State) (id : string) :
  calls (fst (get_dataset_metadata remote id st))
    = calls st ++ [mkCall (current_handle st) (GetMetadata id)
                     (snd (get_dataset_metadata remote id st))] /\
  snd (get_dataset_metadata remote id st)
    = snd (remote (current_handle st) (GetMetadata id) (world st)).
Proof. unfold get_dataset_metadata. by rewrite query_run. Qed.

(** X5. [get_dataset_metadata] issues exactly one metadata query, through
    the handle in use, and hands its outcome to the caller as it came:
    the record, or the exception. *)
Theorem get_dataset_metadata_single_query (st : State) (id : string) :
  exists c : Call,
    calls (fst (get_dataset_metadata remote id st)) = calls st ++ [c] /\
    via c = current_handle st /\
    req c = GetMetadata id /\
    snd (get_dataset_metadata remote id st) = resp c.
Proof.
  destruct (get_dataset_metadata_run st id) as [Hcalls _].
  eexists. split; [exact Hcalls|]. by repeat split.
Qed.

Lemma dataset_last_updated_run (st : State) (id : string) :
  dataset_last_updated remote localtime id st =
    (fst (get_dataset_metadata remote id st),
     match snd (get_dataset_metadata remote id st) with
     | inl e => inl e
     | inr metadata =>
         match py_key metadata "rowsUpdatedAt" with
         | inl e => inl e
         | inr stamp => localtime stamp
         end
     end).
Proof.
  unfold dataset_last_updated.
  generalize (get_dataset_metadata remote id). intros m. unfold bind, lift.
  destruct (m st) as [st1 [e|metadata]]; simpl; [done|].
  destruct (py_key metadata "rowsUpdatedAt") as [e|stamp]; simpl; [done|].
  by destruct (localtime stamp).
Qed.

(** X6. [dataset_last_updated] issues one metadata query and nothing
    else.  An exception of the query is passed on; a record without the
    field [rowsUpdatedAt] raises [KeyError] and an answer that is no
    record raises [TypeError], whatever [time.localtime] would do;
    otherwise the result is [time.localtime] of the field. *)
Theorem dataset_last_updated_outcomes (st : State) (id : string) :
  exists c : Call,
    calls (fst (dataset_last_updated remote localtime id st))
      = calls st ++ [c] /\
    req c = GetMetadata id /\
    (forall e, resp c = inl e ->
       snd (dataset_last_updated remote localtime id st) = inl e) /\
    (forall d, resp c = inr (PyDict d) ->
       match assoc_lookup "rowsUpdatedAt" d with
       | Some stamp =>
           snd (dataset_last_updated remote localtime id st)
           = localtime stamp
       | None =>
           snd (dataset_last_updated remote localtime id st)
           = inl (KeyError (PyStr "rowsUpdatedAt"))
       end) /\
    (forall v, resp c = inr v -> (forall d, v <> PyDict d) ->
       snd (dataset_last_updated remote localtime id st) = inl TypeError).
Proof.
  rewrite dataset_last_updated_run.
  destruct (get_dataset_metadata_run st id) as [Hcalls _].
  eexists. split; [exact Hcalls|]. split; [reflexivity|]. simpl.
  split; [by intros e ->|]. split.
  - intros d ->. simpl. by destruct (assoc_lookup "rowsUpdatedAt" d).
  - intros v -> Hv. destruct v; simpl; try done. by destruct (Hv d).
Qed.

(** *** The tabular frame *)

Lemma get_dataframe_run (st : State) (id : string) :
  get_dataframe remote from_records id st =
    match get_dataset remote id st with
    | (st1, inl e) => (st1, inl e)
    | (st1, inr dataset) =>
        match columns_of id with
        | inl e => (st1, inl e)
        | inr columns =>
            ({| self := self st1; world := world st1; calls := calls st1;
                built := built st1;
                framed := framed st1 ++ [(dataset, columns)] |},
             from_records dataset columns)
        end
    end.
Proof.
  unfold get_dataframe. generalize (get_dataset remote id). intros m.
  unfold bind, lift, DataFrame_from_records.
  destruct (m st) as [st1 [e|dataset]]; simpl; [done|].
  destruct (columns_of id) as [e|columns]; simpl; [done|].
  by destruct (from_records dataset columns).
Qed.

(** X7. For a dataset id of the column table, [get_dataframe] issues the
    one page query of [get_dataset]; when it answers, the tabular
    constructor is called exactly once, with the answer and the declared
    columns of that id, and its outcome is the result; when it raises,
    the constructor is not called and the exception is passed on. *)
Theorem get_dataframe_columns (st : State) (id : string)
    (columns : list string) :
  WSLCB_PORTAL_DATASET_COLUMNS !! id = Some columns ->
  exists c : Call,
    calls (fst (get_dataframe remote from_records id st)) = calls st ++ [c] /\
    req c = Get id {| select := None; order := None; offset := None;
                      limit := Some 100000 |} /\
    (forall dataset, resp c = inr dataset ->
       framed (fst (get_dataframe remote from_records id st))
         = framed st ++ [(dataset, columns)] /\
       snd (get_dataframe remote from_records id st)
         = from_records dataset columns) /\
    (forall e, resp c = inl e ->
       framed (fst (get_dataframe remote from_records id st)) = framed st /\
       snd (get_dataframe remote from_records id st) = inl e).
Proof.
  intros Hid. rewrite get_dataframe_run. unfold columns_of. rewrite Hid.
  destruct (get_dataset_run remote st id) as [h (Hcalls & Hframed & Hres)].
  destruct (get_dataset remote id st) as [st1 [e|dataset]]; simpl in *;
    (eexists; split; [exact Hcalls|]; split; [reflexivity|]; simpl;
     rewrite <- Hres; split).
  - done.
  - by intros ? [= ->].
  - intros ? [= <-]. by rewrite Hframed.
  - done.
Qed.

(** X8. The tabular constructor is called by [get_dataframe] only, and
    at most once per call: every other operation leaves the record of
    constructor calls as it was. *)
Theorem frames_only_from_get_dataframe (o : Op) (st : State) :
  match o with
  | OpDataframe _ =>
      exists l, framed (exec o st) = framed st ++ l /\ (length l <= 1)%nat
  | _ => framed (exec o st) = framed st
  end.
Proof.
  set (R := fun a b : State => framed b = framed a).
  assert (Hr : forall a, R a a) by done.
  assert (Ht : forall a b c, R a b -> R b c -> R a c)
    by (unfold R; congruence).
  assert (Hc : respects R client).
  { intros a. unfold R. destruct (_client (self a)) as [h|] eqn:Hc.
    - by rewrite (client_cached _ _ Hc).
    - by rewrite (client_first _ Hc). }
  assert (Hs : forall h r, respects R (send remote h r))
    by (intros h r a; by rewrite send_run).
  destruct o; simpl.
  - by apply (respects_get_dataset_metadata remote R).
  - by apply (respects_get_dataset_count remote R).
  - by apply (respects_get_dataset remote R).
  - by apply (respects_get_entire_dataset remote R).
  - pose proof (respects_get_dataset remote R Ht Hc Hs dataset_id st) as Hd.
    unfold R in Hd. unfold get_dataframe, bind at 1.
    destruct (get_dataset remote dataset_id st) as [st1 [e|d]]; simpl in *.
    { exists []. rewrite app_nil_r. split; [done | simpl; lia]. }
    unfold bind, lift. destruct (columns_of dataset_id) as [e|cols]; simpl.
    { exists []. rewrite app_nil_r. split; [done | simpl; lia]. }
    exists [(d, cols)]. split; [|done].
    destruct (from_records d cols); simpl; by rewrite Hd.
  - by apply (respects_dataset_last_updated remote localtime R).
  - done.
  - done.
  - by apply Hc.
Qed.

(** *** More on the paging loop *)

Lemma py_range_nonpositive (stop step : Z) :
  stop <= 0 -> py_range 0 stop step = [].
Proof.
  intros Hs. unfold py_range, range_len.
  destruct (Z.ltb_spec 0 stop) as [?|_]; [lia|]. by rewrite andb_false_r.
Qed.

(** X9. When there is nothing to page, [get_entire_dataset] stops after
    the count query: if the count raises, that exception is the outcome;
    if the count is zero or negative, the outcome is the empty list.  In
    both cases the state is the one the count left, so no page query was
    issued. *)
Theorem get_entire_dataset_no_pages (st : State) (id ord : string) :
  (forall e, snd (get_dataset_count remote id st) = inl e ->
     get_entire_dataset remote id ord st
     = (fst (get_dataset_count remote id st), inl e)) /\
  (forall N, snd (get_dataset_count remote id st) = inr N -> N <= 0 ->
     get_entire_dataset remote id ord st
     = (fst (get_dataset_count remote id st), inr [])).
Proof.
  rewrite get_entire_dataset_unfold. split.
  - by intros e ->.
  - intros N -> HN. by rewrite py_range_nonpositive.
Qed.

Lemma failed_rows_is_last (good bad pre post : list Call) (c : Call)
    (e : Exn) (got : list (list PyVal)) :
  Forall2 (fun c rows => returned_rows c = inr rows) good got ->
  bad = [] \/ (exists c', bad = [c']) ->
  pre ++ c :: post = good ++ bad ->
  returned_rows c = inl e ->
  bad = [c] /\ post = [].
Proof.
  intros Hgood Hbad. revert pre.
  induction Hgood as [|g rows good got Hg _ IH]; intros pre Heq He.
  - simpl in Heq. destruct Hbad as [->|[c' ->]].
    + by destruct pre.
    + destruct pre as [|p pre]; [by injection Heq as -> ->|].
      injection Heq as _ Heq. by destruct pre.
  - destruct pre as [|p pre].
    + injection Heq as -> _. congruence.
    + injection Heq as _ Heq. by apply (IH pre).
Qed.

(** X10. A page query whose answer cannot be iterated (null, a boolean, a
    number) makes [get_entire_dataset] raise [TypeError]; the rows of the
    earlier pages are not returned and no further query is issued. *)
Theorem page_not_iterable_aborts (st : State) (id ord : string)
    (pre post : list Call) (c : Call) (v : PyVal) (e : Exn) :
  calls (fst (get_entire_dataset remote id ord st))
    = calls (fst (get_dataset_count remote id st)) ++ pre ++ c :: post ->
  resp c = inr v ->
  py_iter v = inl e ->
  snd (get_entire_dataset remote id ord st) = inl TypeError /\
  e = TypeError /\ post = [].
Proof.
  intros Hcalls Hv He.
  assert (e = TypeError) as -> by (destruct v; simpl in He; congruence).
  assert (Hrows : returned_rows c = inl TypeError)
    by (unfold returned_rows; by rewrite Hv).
  destruct (get_entire_dataset_run remote st id ord)
    as (c0 & good & bad & got & _ & _ & _ & Hall & Hgood & Hend).
  rewrite Hall in Hcalls. apply app_inv_head in Hcalls. symmetry in Hcalls.
  destruct (snd (get_dataset_count remote id st)) as [e0|count].
  { destruct Hend as (-> & -> & _). by destruct pre. }
  destruct Hend as [_ Hend].
  assert (bad = [] \/ (exists c', bad = [c'])) as Hbad.
  { destruct Hend as [(-> & _)|(c' & e' & -> & _)]; eauto. }
  destruct (failed_rows_is_last good bad pre post c TypeError got Hgood Hbad
              Hcalls Hrows) as [-> ->].
  destruct Hend as [(? & _)|(c' & e' & [= <-] & Hc' & Hres)]; [done|].
  split; [|done]. congruence.
Qed.

(** X11. [get_entire_dataset] issues one call when the count fails, and
    for a count [N] at least one and at most 1 + ⌈N/100000⌉ calls. *)
Theorem get_entire_dataset_call_bound (st : State) (id ord : string) :
  match snd (get_dataset_count remote id st) with
  | inl _ =>
      length (calls (fst (get_entire_dataset remote id ord st)))
      = S (length (calls st))
  | inr N =>
      (S (length (calls st))
       <= length (calls (fst (get_entire_dataset remote id ord st)))
       <= S (length (calls st)) + Z.to_nat (ceil_div N 100000))%nat
  end.
Proof.
  destruct (get_entire_dataset_run remote st id ord)
    as (c0 & good & bad & got & Hc0 & _ & _ & Hall & _ & Hend).
  rewrite Hall, Hc0, !length_app. simpl.
  destruct (snd (get_dataset_count remote id st)) as [e|N].
  - destruct Hend as (-> & -> & _). simpl. lia.
  - destruct Hend as [Hreq _]. apply (f_equal length) in Hreq.
    rewrite !length_fmap, length_take, py_range_length in Hreq by lia.
    rewrite length_app in Hreq. lia.
Qed.

(** *** A fresh instance *)

(** X12. The handle a fresh instance builds carries the portal address
    and the token the constructor stored, and the calls of its first
    operation all go through it: the token that reaches the service is
    the constructor's argument, or the environment's value when the
    argument was empty. *)
Theorem fresh_instance_requests (environ : gmap string string)
    (tok : string) (o : Op) (st : State) :
  self st = init environ tok ->
  exists news : list Call,
    calls (exec o st) = calls st ++ news /\
    Forall (fun c =>
              domain (via c) = WSLCB_PORTAL_URL /\
              token (via c)
              = if decide (tok = "")
                then os_getenv environ "WSLCB_APP_TOKEN" ""
                else tok) news.
Proof.
  intros Hself.
  destruct (exec_through o st) as (news & Hcalls & Hvia).
  exists news. split; [done|].
  eapply Forall_impl; [exact Hvia|]. intros c ->.
  unfold current_handle, next_handle. rewrite Hself. simpl.
  split; [done|]. by destruct (decide (tok = "")).
Qed.

End More.

(** *** The column table *)

(** X13. Every dataset of the column table declares at least one column
    and no column twice; the table has eight datasets. *)
Theorem column_table_wellformed :
  size WSLCB_PORTAL_DATASET_COLUMNS = 8%nat /\
  forall id columns,
    WSLCB_PORTAL_DATASET_COLUMNS !! id = Some columns ->
    columns <> [] /\ NoDup columns.
Proof.
  split; [by vm_compute|].
  intros id columns Hid. apply elem_of_list_to_map_2 in Hid.
  repeat (apply elem_of_cons in Hid as [[= -> ->]|Hid]);
    try (split; [done | by apply (bool_decide_unpack _)]).
  by apply elem_of_nil in Hid.
Qed.

(** *** The further properties on concrete services *)

(** A run that raises on its second page still leaves the handle
    cached. *)
Lemma operation_single_handle_witness :
  _client (self (exec Demo.flaky Demo.from_records Demo.localtime
                   (OpAll "bhbp-x4eb" "ubi") (Demo.fresh tt "t")))
  = Some {| handle_id := 0; domain := "data.lcb.wa.gov"; token := "t" |}.
Proof.
  apply (proj2 (operation_single_handle Demo.flaky Demo.from_records
                  Demo.localtime (OpAll "bhbp-x4eb" "ubi")
                  (Demo.fresh tt "t"))).
  reflexivity.
Defined.

(** After the token is set to "second", the calls still carry "first". *)
Lemma calls_through_cached_handle_witness :
  through Demo.first_handle Demo.opened Demo.after_session /\
  (fun c => token (via c)) <$> calls Demo.after_session = ["first"; "first"].
Proof.
  split; [|by vm_compute].
  apply (proj1 (calls_through_cached_handle (Demo.remote "3" 100000)
                  Demo.from_records Demo.localtime Demo.session Demo.opened
                  Demo.first_handle eq_refl)).
Defined.

Lemma token_survives_operations_witness :
  snd (app_token
         (exec_all (Demo.remote "3" 100000) Demo.from_records Demo.localtime
            [OpAll "bhbp-x4eb" "ubi"; OpDataframe "bhbp-x4eb"; OpClient]
            (fst (set_app_token "second" (Demo.fresh 3 "first")))))
  = inr "second".
Proof.
  apply (token_survives_operations (Demo.remote "3" 100000)
           Demo.from_records Demo.localtime "second").
  repeat constructor.
Defined.

(** A record with the field, and a record without it. *)
Lemma dataset_last_updated_outcomes_witness :
  snd (dataset_last_updated (Demo.remote "3" 100000) Demo.localtime
         "bhbp-x4eb" (Demo.fresh 3 "t")) = inr 1500000000 /\
  snd (dataset_last_updated Demo.broken Demo.localtime "bhbp-x4eb"
         (Demo.fresh tt "t")) = inl (KeyError (PyStr "rowsUpdatedAt")).
Proof.
  split.
  - destruct (dataset_last_updated_outcomes (Demo.remote "3" 100000)
                Demo.localtime (Demo.fresh 3 "t") "bhbp-x4eb")
      as (c & Hcalls & _ & _ & Hdict & _).
    vm_compute in Hcalls. injection Hcalls as <-.
    exact (Hdict [("rowsUpdatedAt", PyInt 1500000000)] eq_refl).
  - destruct (dataset_last_updated_outcomes Demo.broken Demo.localtime
                (Demo.fresh tt "t") "bhbp-x4eb")
      as (c & Hcalls & _ & _ & Hdict & _).
    vm_compute in Hcalls. injection Hcalls as <-.
    exact (Hdict [] eq_refl).
Defined.

Lemma get_dataframe_columns_witness :
  framed (fst (get_dataframe (Demo.remote "3" 100000) Demo.from_records
                 "w7wg-8m52" (Demo.fresh 3 "t")))
  = [(PyList [Demo.row 0; Demo.row 1; Demo.row 2],
      ["date"; "license_number"; "city_name"; "county_name"; "activity"])].
Proof.
  destruct (get_dataframe_columns (Demo.remote "3" 100000) Demo.from_records
              (Demo.fresh 3 "t") "w7wg-8m52"
              ["date"; "license_number"; "city_name"; "county_name";
               "activity"])
    as (c & Hcalls & _ & Hok & _); [by vm_compute|].
  vm_compute in Hcalls. injection Hcalls as <-.
  exact (proj1 (Hok _ eq_refl)).
Defined.

(** A count that cannot be read, and a negative count. *)
Lemma get_entire_dataset_no_pages_witness :
  snd (get_entire_dataset (Demo.fixed (PyList [])) "bhbp-x4eb" "ubi"
         (Demo.fresh tt "t")) = inl IndexError /\
  snd (get_entire_dataset (Demo.remote "-5" 100000) "bhbp-x4eb" "ubi"
         (Demo.fresh 3 "t")) = inr [].
Proof.
  split.
  - rewrite (proj1 (get_entire_dataset_no_pages (Demo.fixed (PyList []))
                      (Demo.fresh tt "t") "bhbp-x4eb" "ubi") IndexError);
      [reflexivity | by vm_compute].
  - rewrite (proj2 (get_entire_dataset_no_pages (Demo.remote "-5" 100000)
                      (Demo.fresh 3 "t") "bhbp-x4eb" "ubi") (-5));
      [reflexivity | by vm_compute | lia].
Defined.

(** The second page is null: the two rows of the first are lost. *)
Lemma page_not_iterable_aborts_witness :
  snd (get_entire_dataset Demo.broken "bhbp-x4eb" "ubi" (Demo.fresh tt "t"))
  = inl TypeError.
Proof.
  refine (proj1 (page_not_iterable_aborts Demo.broken (Demo.fresh tt "t")
            "bhbp-x4eb" "ubi"
            [mkCall {| handle_id := 0; domain := WSLCB_PORTAL_URL;
                       token := "t" |}
               (page_request "bhbp-x4eb" "ubi" 0 100000)
               (inr (PyList [Demo.row 0; Demo.row 1]))]
            []
            (mkCall {| handle_id := 0; domain := WSLCB_PORTAL_URL;
                       token := "t" |}
               (page_request "bhbp-x4eb" "ubi" 100000 100000) (inr PyNone))
            PyNone TypeError _ _ _)).
  - by vm_compute.
  - reflexivity.
  - reflexivity.
Defined.

Lemma fresh_instance_requests_witness :
  exists news : list Call,
    calls (exec (Demo.remote "3" 100000) Demo.from_records Demo.localtime
             (OpPage "bhbp-x4eb") Demo.from_environment)
      = [] ++ news /\
    Forall (fun c => domain (via c) = "data.lcb.wa.gov" /\
                     token (via c) = "from-env") news.
Proof.
  exact (fresh_instance_requests (Demo.remote "3" 100000) Demo.from_records
           Demo.localtime {["WSLCB_APP_TOKEN" := "from-env"]} ""
           (OpPage "bhbp-x4eb") Demo.from_environment eq_refl).
Defined.

Lemma column_table_wellformed_witness :
  ["date"; "license_number"; "city_name"; "county_name"; "activity"] <> []
  /\ NoDup ["date"; "license_number"; "city_name"; "county_name"; "activity"].
Proof.
  apply (proj2 column_table_wellformed "w7wg-8m52"). by vm_compute.
Defined.
